(** * multi-data-logger: the log fan-out core of [src/main.cpp]

    A shallow embedding of namespace [tp] (levels, the two loggers, the
    message builder, the dispatch routine [log], the class [component]) and
    of [main], followed by the properties of the dispatch mechanism.

    Conventions of the embedding.
    - [std::size_t] is [N], [std::int32_t] and the underlying [int] of the
      scoped enumeration are [Z]; no arithmetic is done on them by the code.
    - A template is a function of its template arguments.  Where the source
      selects code at compile time ([if constexpr], [static_assert]) the
      result is an [instantiation]: either the run-time function obtained,
      or the rejection of the program by the compiler.
    - Run-time code lives in the monad [M]: it produces a trace of events
      and an [outcome] (normal return, [abort()] after a failed [assert],
      or undefined behaviour).  The trace holds every write to standard
      output together with a record of each call made by the dispatch
      routine, so that the order and the number of calls can be stated.
    - [assert] is compiled in ([NDEBUG] is not defined), and a write to
      standard output succeeds. *)

From Stdlib Require Import ZArith NArith List String Ascii Bool Arith Lia.
From Stdlib Require Import DecimalString DecimalN.
Import ListNotations.
Local Open Scope list_scope.
Local Open Scope string_scope.

Module tp.

(** ** Scalar types and the frame payload array *)

(** [using can_id_t = std::int32_t;] *)
Definition can_id_t : Type := Z.

(** [std::size_t] *)
Definition size_t : Type := N.

(** [constexpr std::size_t max_data_size = 6;] *)
Definition max_data_size : nat := 6.

(** [using can_data_t = std::array<std::size_t, max_data_size>;] *)
Definition can_data_t : Type := list size_t.

(** Aggregate initialisation [std::array<std::size_t, size>{init...}]: the
    listed elements come first, every remaining element is
    value-initialised, that is zero. *)
Definition array_init (size : nat) (init : list size_t) : list size_t :=
  (firstn size init ++ repeat 0%N (size - List.length init))%list.

(** [a[i]] on a [std::array], the index being a [std::size_t] (so never
    negative): the element when [i] is in range, nothing defined else. *)
Definition array_at {A : Type} (a : list A) (i : Z) : option A :=
  if (i <? Z.of_nat (List.length a))%Z then nth_error a (Z.to_nat i) else None.

(** [static_cast<std::size_t>(v)] of a signed value, on 64 bits. *)
Definition static_cast_size_t (v : Z) : Z := (v mod 2 ^ 64)%Z.

(** ** Outcomes of run-time code *)

Inductive outcome (A : Type) : Type :=
| Done (a : A)   (* the call returns *)
| Aborted        (* a failed [assert]: the program aborts *)
| Undefined.     (* the language leaves the behaviour undefined *)

Arguments Done {A} a.
Arguments Aborted {A}.
Arguments Undefined {A}.

(** ** Levels *)

(** [enum class log_level { info, warning, error, fatal, count };]
    A scoped enumeration has underlying type [int], and every value of
    that type is a value of the enumeration: a level is its underlying
    value. *)
Module log_level.
Definition t : Type := Z.
Definition info : t := 0%Z.
Definition warning : t := 1%Z.
Definition error : t := 2%Z.
Definition fatal : t := 3%Z.
Definition count : t := 4%Z.
End log_level.

(** The static array [names] of [to_string]. *)
Definition names : list string := ["info"; "warning"; "error"; "fatal"].

(** [std::string_view to_string(const log_level &level)] *)
Definition to_string (level : log_level.t) : outcome string :=
  if (level <? log_level.count)%Z                       (* assert *)
  then match array_at names (static_cast_size_t level) with
       | Some name => Done name
       | None => Undefined
       end
  else Aborted.

(** ** The part of [std::format] the program uses *)

(** The argument types that reach [std::print] and [std::println]. *)
Inductive format_arg : Type :=
| arg_string_view (s : string)
| arg_int32 (v : Z)
| arg_size_t (v : size_t)
| arg_array (a : list size_t).

(** Decimal text of an unsigned and of a signed integer. *)
Definition decimal (v : N) : string := NilZero.string_of_uint (N.to_uint v).
Definition decimal_signed (v : Z) : string := NilZero.string_of_int (Z.to_int v).

(** The elements of a range, separated by [", "]. *)
Fixpoint join_decimal (a : list size_t) : string :=
  match a with
  | [] => ""
  | [v] => decimal v
  | v :: rest => decimal v ++ ", " ++ join_decimal rest
  end.

(** Default ([{}]) formatting of one argument; a range is written
    [[e0, e1, ...]]. *)
Definition format_value (a : format_arg) : string :=
  match a with
  | arg_string_view s => s
  | arg_int32 v => decimal_signed v
  | arg_size_t v => decimal v
  | arg_array a => "[" ++ join_decimal a ++ "]"
  end.

(** [std::format(fmt, args...)] for format strings made of literal text and
    [{}] fields, the only ones in this program: each [{}] is replaced by the
    next argument.  The compiler checks the format string against the
    argument types and rejects a field that has no argument, so the branch
    for it is never run; it writes nothing for such a field. *)
Fixpoint format (fmt : string) (args : list format_arg) : string :=
  match fmt with
  | EmptyString => EmptyString
  | String c rest =>
      if Ascii.eqb c "{" then
        match rest with
        | String d rest' =>
            if Ascii.eqb d "}" then
              match args with
              | a :: args' => format_value a ++ format rest' args'
              | [] => format rest' []
              end
            else String c (format rest args)
        | EmptyString => String c EmptyString
        end
      else String c (format rest args)
  end.

(** The line terminator written by [std::println]. *)
Definition newline : string := String (ascii_of_nat 10) EmptyString.

(** ** Classes, payload and messages *)

(** The class types a [Loggers...] pack can name: the two loggers of the
    program and any other class. *)
Inductive class_name : Type :=
| can_logger
| file_logger
| other_class (name : string).

(** [std::is_same_v<a, b>] *)
Definition is_same_v (a b : class_name) : bool :=
  match a, b with
  | can_logger, can_logger => true
  | file_logger, file_logger => true
  | other_class n, other_class m => String.eqb n m
  | _, _ => false
  end.

(** [struct input_data { std::size_t length, width, height; };] *)
Record input_data : Type := { length : size_t; width : size_t; height : size_t }.

(** [struct can_logger::message { can_id_t can_id; can_data_t data; };] *)
Record can_logger_message : Type := { can_id : can_id_t; data : can_data_t }.

(** [file_logger::message<Format, Args...>]: the format string it is
    instantiated with and the tuple [args] of references to the values. *)
Record file_logger_message : Type := { Format : string; args : list format_arg }.

(** The type of the message [create_message<Logger>] returns.  No message
    type exists for a class the builder does not know. *)
Definition message_type (Logger : class_name) : Type :=
  match Logger with
  | can_logger => can_logger_message
  | file_logger => file_logger_message
  | other_class _ => Empty_set
  end.

(** ** Template instantiation *)

Inductive instantiation (A : Type) : Type :=
| Instantiated (a : A)     (* the code the compiler generates *)
| static_assert_failed.    (* the program is rejected by the compiler *)

Arguments Instantiated {A} a.
Arguments static_assert_failed {A}.

(** ** The message builder *)

(** [template <can_id_t CanId> class message_builder]: a class without
    data members. *)
Inductive message_builder (CanId : can_id_t) : Type := message_builder_object.

(** The format string of the file-logger message. *)
Definition format_literal : string :=
  "input data: length: {}, width: {}, height: {}".

(** [message_builder<CanId>::create_message<Logger>(data)].  The branch is
    chosen by the compiler from [Logger]; the function obtained only reads
    [data]. *)
Definition create_message (CanId : can_id_t) (Logger : class_name)
  : instantiation (input_data -> message_type Logger) :=
  match Logger with
  | can_logger =>                       (* if constexpr (is_same_v<Logger, can_logger>) *)
      Instantiated (fun data_ =>
        {| can_id := CanId;
           data := array_init max_data_size [length data_; width data_; height data_] |})
  | file_logger =>                      (* else, static_assert holds *)
      Instantiated (fun data_ =>
        {| Format := format_literal;
           args := [arg_size_t (length data_); arg_size_t (width data_);
                    arg_size_t (height data_)] |})
  | other_class _ =>                    (* else, static_assert fails *)
      static_assert_failed
  end.

(** ** Events and the monad of run-time code *)

(** The storage location of an object: what a reference designates. *)
Definition address : Type := nat.

Inductive event : Type :=
| create_message_call (Logger : class_name) (data_ : input_data)
| log_call (Logger : class_name) (logger : address) (Level : log_level.t)
           (message : message_type Logger)
| stdout_write (text : string).

Definition M (A : Type) : Type := (list event * outcome A)%type.

Definition ret {A : Type} (a : A) : M A := ([], Done a).

Definition bind {A B : Type} (m : M A) (k : A -> M B) : M B :=
  match m with
  | (t, Done a) => let (t', o) := k a in ((t ++ t')%list, o)
  | (t, Aborted) => (t, Aborted)
  | (t, Undefined) => (t, Undefined)
  end.

Notation "x <- m ;; k" := (bind m (fun x => k))
  (at level 61, m at next level, right associativity).
Notation "m ;; k" := (bind m (fun _ => k))
  (at level 61, right associativity).

Definition emit (e : event) : M unit := ([e], Done tt).

Definition lift {A : Type} (o : outcome A) : M A := ([], o).

Definition trace {A : Type} (m : M A) : list event := fst m.
Definition result {A : Type} (m : M A) : outcome A := snd m.

(** [std::print(fmt, args...)] and [std::println(fmt, args...)] *)
Definition print (fmt : string) (args_ : list format_arg) : M unit :=
  emit (stdout_write (format fmt args_)).

Definition println (fmt : string) (args_ : list format_arg) : M unit :=
  emit (stdout_write (format fmt args_ ++ newline)).

(** ** The two loggers *)

(** [template <log_level Level> void can_logger::log(const message &msg)] *)
Definition can_logger_log (Level : log_level.t) (msg : can_logger_message) : M unit :=
  level <- lift (to_string Level) ;;
  println "{}: can logger: can id: {}, data: {}"
          [arg_string_view level; arg_int32 (can_id msg); arg_array (data msg)].

(** [template <log_level Level, format_type Format, class... Args>
     void file_logger::log(const message<Format, Args...> &msg)] *)
Definition file_logger_log (Level : log_level.t) (msg : file_logger_message) : M unit :=
  level <- lift (to_string Level) ;;
  print "{}: file logger: " [arg_string_view level] ;;
  println (Format msg) (args msg).

(** [logger.template log<Level>(message)], resolved from the class of
    [logger]. *)
Definition logger_log (Logger : class_name) (Level : log_level.t)
  : message_type Logger -> M unit :=
  match Logger with
  | can_logger => can_logger_log Level
  | file_logger => file_logger_log Level
  | other_class _ => fun message => match message with end
  end.

(** ** The dispatch routine *)

(** [std::tuple<Loggers &...>]: one reference per class of the pack. *)
Fixpoint tuple (Loggers : list class_name) : Type :=
  match Loggers with
  | [] => unit
  | _ :: rest => (address * tuple rest)%type
  end.

(** The generic lambda [log] inside [tp::log], instantiated for one class
    of the pack. *)
Definition log_lambda (Level : log_level.t) {CanId : can_id_t} (Logger : class_name)
  : instantiation (input_data -> message_builder CanId -> address -> M unit) :=
  match create_message CanId Logger with
  | Instantiated create =>
      Instantiated (fun data_ builder logger =>
        emit (create_message_call Logger data_) ;;
        let message := create data_ in
        emit (log_call Logger logger Level message) ;;
        logger_log Logger Level message)
  | static_assert_failed => static_assert_failed
  end.

(** [template <log_level Level, class Data, class MessageBuilder, class... Loggers>
     void log(const Data &data, const MessageBuilder &builder,
              std::tuple<Loggers &...> loggers) noexcept],
    at [Data = input_data] and [MessageBuilder = message_builder<CanId>],
    the arguments [component::process] calls it with (the template itself
    takes any payload and builder types):
    the fold [(log(loggers_), ...)] runs the lambda on each element of the
    tuple, from the first to the last. *)
Fixpoint log (Level : log_level.t) {CanId : can_id_t} (Loggers : list class_name)
  : instantiation (input_data -> message_builder CanId -> tuple Loggers -> M unit) :=
  match Loggers
        return instantiation (input_data -> message_builder CanId -> tuple Loggers -> M unit)
  with
  | [] => Instantiated (fun _ _ _ => ret tt)
  | Logger :: rest =>
      match log_lambda Level Logger, log Level rest with
      | Instantiated first, Instantiated others =>
          Instantiated (fun data_ builder loggers =>
            first data_ builder (fst loggers) ;;
            others data_ builder (snd loggers))
      | _, _ => static_assert_failed
      end
  end.

(** ** The component *)

Module component.

(** [static constexpr can_id_t can_id{10};] *)
Definition can_id : can_id_t := 10%Z.

Definition message_builder_type : Type := message_builder can_id.
Definition loggers_type (Loggers : list class_name) : Type := tuple Loggers.

(** The data members of [component<Loggers...>]. *)
Record t (Loggers : list class_name) : Type :=
  { loggers_ : loggers_type Loggers;
    message_builder_ : message_builder_type }.

Arguments loggers_ {Loggers} _.
Arguments message_builder_ {Loggers} _.

(** [explicit component(Logs &...loggers) noexcept] *)
Definition component {Loggers : list class_name} (loggers : tuple Loggers) : t Loggers :=
  {| loggers_ := loggers; message_builder_ := message_builder_object can_id |}.

(** [void process(const input_data &input)], a non-const member function:
    it is given the object and returns it as the call leaves it. *)
Definition process (Loggers : list class_name)
  : instantiation (t Loggers -> input_data -> M (t Loggers)) :=
  match log log_level.info Loggers with
  | Instantiated run =>
      Instantiated (fun self input =>
        run input (message_builder_ self) (loggers_ self) ;;
        ret self)
  | static_assert_failed => static_assert_failed
  end.

End component.

(** [int main()], given where its two local loggers are stored. *)
Definition main (can_logger_ file_logger_ : address) : instantiation (M Z) :=
  let Loggers := [can_logger; file_logger] in
  let comp : component.t Loggers := component.component (Loggers := Loggers) (can_logger_, (file_logger_, tt)) in
  match component.process Loggers with
  | Instantiated process =>
      Instantiated (process comp {| length := 1%N; width := 2%N; height := 3%N |} ;;
                    ret 0%Z)
  | static_assert_failed => static_assert_failed
  end.

End tp.

Import tp.

(** * Vocabulary of the properties *)

(** A sink registered with a component: its class and the object the
    reference designates. *)
Definition sink : Type := (class_name * address)%type.

Definition sink_eq_dec (a b : sink) : {a = b} + {a <> b}.
Proof. repeat decide equality. Defined.

(** The sinks of a tuple of references, in the order of registration. *)
Fixpoint registered (Loggers : list class_name) : tuple Loggers -> list sink :=
  match Loggers return tuple Loggers -> list sink with
  | [] => fun _ => []
  | Logger :: rest => fun loggers => (Logger, fst loggers) :: registered rest (snd loggers)
  end.

(** The classes the builder has a construction path for. *)
Definition known (Logger : class_name) : bool :=
  is_same_v Logger can_logger || is_same_v Logger file_logger.

(** The can loggers of a pack. *)
Definition can_loggers (Loggers : list class_name) : list class_name :=
  filter (fun Logger => is_same_v Logger can_logger) Loggers.

(** Valid levels: the four enumerators below the sentinel [count]. *)
Definition valid_level (level : log_level.t) : Prop :=
  (log_level.info <= level < log_level.count)%Z.

(** What a trace shows: the sinks whose [log] was called, the classes a
    message was built for, the level of each [log] call, the identifier of
    each frame message handed to a sink, and the text on standard output. *)
Definition log_calls (t : list event) : list sink :=
  flat_map (fun e => match e with log_call L a _ _ => [(L, a)] | _ => [] end) t.

Definition builds (t : list event) : list class_name :=
  flat_map (fun e => match e with create_message_call L _ => [L] | _ => [] end) t.

Definition log_levels (t : list event) : list log_level.t :=
  flat_map (fun e => match e with log_call _ _ Level _ => [Level] | _ => [] end) t.

Definition frame_id (Logger : class_name) : message_type Logger -> list can_id_t :=
  match Logger with
  | can_logger => fun message => [can_id message]
  | _ => fun _ => []
  end.

Definition frame_ids (t : list event) : list can_id_t :=
  flat_map (fun e => match e with log_call L _ _ message => frame_id L message | _ => [] end) t.

Definition stdout (t : list event) : list string :=
  flat_map (fun e => match e with stdout_write text => [text] | _ => [] end) t.

(** A sequence of [process] calls on one component object, the object left
    by a call being the one the next call is made on. *)
Fixpoint process_all {Loggers : list class_name}
    (process : component.t Loggers -> input_data -> M (component.t Loggers))
    (self : component.t Loggers) (inputs : list input_data) : M (component.t Loggers) :=
  match inputs with
  | [] => ret self
  | input :: rest => self' <- process self input ;; process_all process self' rest
  end.

(** The calls of the dispatch routine in a trace: every event that is not
    a write. *)
Definition is_call (e : event) : bool :=
  match e with
  | stdout_write _ => false
  | _ => true
  end.

Definition calls (t : list event) : list event := filter is_call t.

(** The two calls the dispatch routine makes for one sink: the build of
    its message from the payload, then [log] on the sink with that
    message. *)
Definition sink_calls (Level : log_level.t) (CanId : can_id_t) (data_ : input_data)
    (s : sink) : list event :=
  match create_message CanId (fst s) with
  | Instantiated create =>
      [create_message_call (fst s) data_;
       log_call (fst s) (snd s) Level (create data_)]
  | static_assert_failed => []
  end.

(** The run of one sink in a dispatch: the two calls, then all that the
    sink's [log] does with the message at that level. *)
Definition sink_run (Level : log_level.t) (CanId : can_id_t) (data_ : input_data)
    (s : sink) : list event :=
  match create_message CanId (fst s) with
  | Instantiated create =>
      create_message_call (fst s) data_
        :: log_call (fst s) (snd s) Level (create data_)
        :: trace (logger_log (fst s) Level (create data_))
  | static_assert_failed => []
  end.

(** The [log] call on a sink returns at a level, whatever the message: the
    level has a name and the writes to standard output succeed. *)
Definition sinks_return (Level : log_level.t) : Prop :=
  forall (Logger : class_name) (message : message_type Logger),
    known Logger = true -> result (logger_log Logger Level message) = Done tt.

(** All the text written to standard output, in order. *)
Definition output (t : list event) : string :=
  fold_right String.append "" (stdout t).

(** The name [to_string] returns for a level, when it returns. *)
Definition level_name (level : log_level.t) : string :=
  match to_string level with
  | Done name => name
  | _ => ""
  end.

(** The line each logger writes for a payload. *)
Definition can_logger_line (name : string) (CanId : can_id_t) (data_ : input_data) : string :=
  name ++ ": can logger: can id: " ++ decimal_signed CanId ++
  ", data: [" ++ decimal (length data_) ++ ", " ++ decimal (width data_) ++
  ", " ++ decimal (height data_) ++ ", 0, 0, 0]" ++ newline.

Definition file_logger_line (name : string) (data_ : input_data) : string :=
  name ++ ": file logger: input data: length: " ++ decimal (length data_) ++
  ", width: " ++ decimal (width data_) ++
  ", height: " ++ decimal (height data_) ++ newline.

Definition sink_line (name : string) (CanId : can_id_t) (data_ : input_data)
    (Logger : class_name) : string :=
  match Logger with
  | can_logger => can_logger_line name CanId data_
  | file_logger => file_logger_line name data_
  | other_class _ => ""
  end.

(** The lines of a pack of loggers, one after the other. *)
Definition sink_lines (name : string) (CanId : can_id_t) (data_ : input_data)
    (Loggers : list class_name) : string :=
  fold_right String.append "" (map (sink_line name CanId data_) Loggers).

(** The values of the underlying type [int] of the enumeration. *)
Definition int_range (v : Z) : Prop := (- 2 ^ 31 <= v < 2 ^ 31)%Z.

(** Bounds on levels, by arithmetic on the underlying values. *)
Ltac level_bounds :=
  unfold valid_level, log_level.info, log_level.warning, log_level.error,
    log_level.fatal, log_level.count in *;
  lia.

(** * Levels *)

Lemma to_string_enumerators :
  to_string log_level.info = Done "info" /\
  to_string log_level.warning = Done "warning" /\
  to_string log_level.error = Done "error" /\
  to_string log_level.fatal = Done "fatal".
Proof. repeat split. Qed.

Lemma valid_level_cases (level : log_level.t) :
  valid_level level ->
  level = log_level.info \/ level = log_level.warning \/
  level = log_level.error \/ level = log_level.fatal.
Proof.
  level_bounds.
Qed.

Lemma to_string_valid (level : log_level.t) :
  valid_level level ->
  exists name, to_string level = Done name /\ nth_error names (Z.to_nat level) = Some name.
Proof.
  intros H.
  destruct (valid_level_cases level H) as [-> | [-> | [-> | ->]]];
    eexists; split; reflexivity.
Qed.

Lemma to_string_beyond (level : log_level.t) :
  (log_level.count <= level)%Z -> to_string level = Aborted.
Proof.
  intros H. unfold to_string.
  destruct (Z.ltb_spec level log_level.count) as [Hlt | _]; [lia | reflexivity].
Qed.

(** The assertion compares underlying values, so it lets a negative one
    through; the index it becomes is far outside the array. *)
Remark to_string_negative (level : log_level.t) :
  (- 2 ^ 31 <= level < 0)%Z -> to_string level = Undefined.
Proof.
  intros H. unfold to_string.
  destruct (Z.ltb_spec level log_level.count) as [_ | Hge];
    [| unfold log_level.count in Hge; lia].
  unfold array_at, static_cast_size_t.
  destruct (Z.ltb_spec (level mod 2 ^ 64) (Z.of_nat (List.length names))) as [Hlt | _];
    [| reflexivity].
  exfalso.
  assert (level mod 2 ^ 64 = level + 2 ^ 64)%Z as E.
  { symmetry. apply Z.mod_unique with (q := (-1)%Z); lia. }
  rewrite E in Hlt. cbn in Hlt. lia.
Qed.

(** C5. [to_string] gives each valid level (an enumerator below [count])
    its lowercase name, the names of distinct valid levels differ, and for
    every value at or beyond [count] the call aborts. *)
Theorem to_string_names_valid_levels_and_aborts_beyond :
  (forall level, valid_level level ->
     exists name, to_string level = Done name /\
                  nth_error ["info"; "warning"; "error"; "fatal"] (Z.to_nat level) = Some name) /\
  (to_string log_level.info = Done "info" /\
   to_string log_level.warning = Done "warning" /\
   to_string log_level.error = Done "error" /\
   to_string log_level.fatal = Done "fatal") /\
  (forall a b, valid_level a -> valid_level b -> to_string a = to_string b -> a = b) /\
  (forall level, (log_level.count <= level)%Z -> to_string level = Aborted).
Proof.
  split; [exact to_string_valid |].
  split; [exact to_string_enumerators |].
  split; [| exact to_string_beyond].
  intros a b Ha Hb.
  destruct (valid_level_cases a Ha) as [-> | [-> | [-> | ->]]];
    destruct (valid_level_cases b Hb) as [-> | [-> | [-> | ->]]];
    cbn; intros E; try reflexivity; discriminate E.
Qed.

Lemma to_string_names_valid_levels_and_aborts_beyond_witness :
  (exists name, to_string log_level.error = Done name /\
                nth_error ["info"; "warning"; "error"; "fatal"] 2 = Some name) /\
  (to_string log_level.fatal = to_string log_level.fatal -> log_level.fatal = log_level.fatal) /\
  to_string 7%Z = Aborted.
Proof.
  destruct to_string_names_valid_levels_and_aborts_beyond as (Hname & _ & Hinj & Habort).
  split; [| split].
  - apply (Hname log_level.error). level_bounds.
  - apply (Hinj log_level.fatal log_level.fatal); level_bounds.
  - apply (Habort 7%Z). level_bounds.
Defined.

(** * Messages *)

Lemma append_empty_r (s : string) : s ++ "" = s.
Proof. induction s as [| c s IH]; cbn; [reflexivity | now rewrite IH]. Qed.

(** [decimal] writes a number that reads back as itself. *)
Lemma decimal_reads_back (v : N) :
  option_map N.of_uint (NilZero.uint_of_string (decimal v)) = Some v.
Proof.
  unfold decimal.
  rewrite NilZero.usu.
  - cbn. now rewrite DecimalN.Unsigned.of_to.
  - intros E. pose proof (DecimalN.Unsigned.of_to v) as H.
    rewrite E in H. cbn in H. subst v. discriminate E.
Qed.

Lemma array_init_length (size : nat) (init : list size_t) :
  List.length (array_init size init) = size.
Proof.
  unfold array_init.
  rewrite length_app, repeat_length, length_firstn. lia.
Qed.

(** C2. For the can logger, [create_message] returns the message whose
    identifier is the builder's and whose six data slots are the payload's
    length, width and height followed by three zeros. *)
Theorem create_message_can_logger_frame (CanId : can_id_t) (data_ : input_data) :
  exists create,
    create_message CanId can_logger = Instantiated create /\
    create data_ =
      {| can_id := CanId;
         data := [length data_; width data_; height data_; 0%N; 0%N; 0%N] |} /\
    List.length (data (create data_)) = max_data_size.
Proof.
  eexists. split; [reflexivity |]. split; reflexivity.
Qed.

(** The text the format string of the file-logger message becomes. *)
Lemma format_literal_text (l w h : size_t) :
  format format_literal [arg_size_t l; arg_size_t w; arg_size_t h] =
  "input data: length: " ++ decimal l ++ ", width: " ++ decimal w ++
  ", height: " ++ decimal h.
Proof.
  unfold format_literal. cbn -[decimal].
  now rewrite append_empty_r.
Qed.

(** C3. For the file logger, [create_message] returns the fixed
    three-field format string with the payload's length, width and height
    as its values, in that order; formatting them gives
    ["input data: length: L, width: W, height: H"] with the decimal text of
    the values, and the logger writes that line after its level prefix. *)
Theorem create_message_file_logger_text (CanId : can_id_t) (data_ : input_data) :
  exists create,
    create_message CanId file_logger = Instantiated create /\
    create data_ =
      {| Format := "input data: length: {}, width: {}, height: {}";
         args := [arg_size_t (length data_); arg_size_t (width data_);
                  arg_size_t (height data_)] |} /\
    format (Format (create data_)) (args (create data_)) =
      "input data: length: " ++ decimal (length data_) ++
      ", width: " ++ decimal (width data_) ++
      ", height: " ++ decimal (height data_) /\
    forall Level name,
      to_string Level = Done name ->
      file_logger_log Level (create data_) =
        ([stdout_write (name ++ ": file logger: ");
          stdout_write (("input data: length: " ++ decimal (length data_) ++
                         ", width: " ++ decimal (width data_) ++
                         ", height: " ++ decimal (height data_)) ++ newline)],
         Done tt).
Proof.
  eexists. split; [reflexivity |]. split; [reflexivity |].
  split; [apply format_literal_text |].
  intros Level name E.
  unfold file_logger_log. rewrite E.
  unfold lift, print, println, emit, bind. cbn [Format args].
  rewrite format_literal_text. reflexivity.
Qed.

Lemma create_message_file_logger_text_witness :
  exists create,
    create_message 10%Z file_logger = Instantiated create /\
    file_logger_log log_level.info
        (create {| length := 1%N; width := 2%N; height := 3%N |}) =
      ([stdout_write "info: file logger: ";
        stdout_write ("input data: length: 1, width: 2, height: 3" ++ newline)],
       Done tt).
Proof.
  destruct (create_message_file_logger_text 10%Z
              {| length := 1%N; width := 2%N; height := 3%N |})
    as (create & Hcreate & _ & _ & Hlog).
  exists create. split; [exact Hcreate |].
  apply (Hlog log_level.info "info"). reflexivity.
Defined.

(** * The monad *)

Lemma bind_done {A B : Type} (m : M A) (k : A -> M B) (t : list event) (a : A) :
  m = (t, Done a) -> bind m k = ((t ++ trace (k a))%list, result (k a)).
Proof. intros ->. unfold bind, trace, result. now destruct (k a). Qed.

Lemma bind_aborted {A B : Type} (m : M A) (k : A -> M B) (t : list event) :
  m = (t, Aborted) -> bind m k = (t, Aborted).
Proof. now intros ->. Qed.

Lemma bind_undefined {A B : Type} (m : M A) (k : A -> M B) (t : list event) :
  m = (t, Undefined) -> bind m k = (t, Undefined).
Proof. now intros ->. Qed.

(** * What a trace shows, piece by piece *)

Section Observations.

Variables (Logger : class_name) (logger : address) (Level : log_level.t).
Variables (data_ : input_data) (message : message_type Logger).
Variables (ws : list string) (t : list event).

Let call_events : list event :=
  (create_message_call Logger data_ :: log_call Logger logger Level message
     :: map stdout_write ws)%list.

Lemma log_calls_writes : log_calls (map stdout_write ws) = [].
Proof. induction ws; [reflexivity | assumption]. Qed.

Lemma builds_writes : builds (map stdout_write ws) = [].
Proof. induction ws; [reflexivity | assumption]. Qed.

Lemma log_levels_writes : log_levels (map stdout_write ws) = [].
Proof. induction ws; [reflexivity | assumption]. Qed.

Lemma frame_ids_writes : frame_ids (map stdout_write ws) = [].
Proof. induction ws; [reflexivity | assumption]. Qed.

Lemma log_calls_call : log_calls (call_events ++ t) = (Logger, logger) :: log_calls t.
Proof.
  unfold log_calls, call_events. rewrite flat_map_app. cbn.
  fold (log_calls (map stdout_write ws)). now rewrite log_calls_writes.
Qed.

Lemma builds_call : builds (call_events ++ t) = Logger :: builds t.
Proof.
  unfold builds, call_events. rewrite flat_map_app. cbn.
  fold (builds (map stdout_write ws)). now rewrite builds_writes.
Qed.

Lemma log_levels_call : log_levels (call_events ++ t) = Level :: log_levels t.
Proof.
  unfold log_levels, call_events. rewrite flat_map_app. cbn.
  fold (log_levels (map stdout_write ws)). now rewrite log_levels_writes.
Qed.

Lemma frame_ids_call :
  frame_ids (call_events ++ t) = (frame_id Logger message ++ frame_ids t)%list.
Proof.
  unfold frame_ids, call_events. rewrite flat_map_app. cbn.
  fold (frame_ids (map stdout_write ws)). now rewrite frame_ids_writes, app_nil_r.
Qed.

End Observations.

(** * One sink *)

Lemma known_cases (Logger : class_name) :
  known Logger = true -> Logger = can_logger \/ Logger = file_logger.
Proof. destruct Logger; cbn; intros H; auto; discriminate H. Qed.

Lemma unknown_cases (Logger : class_name) :
  known Logger = false -> exists name, Logger = other_class name.
Proof. destruct Logger; cbn; intros H; try discriminate H. now eexists. Qed.

(** A logger writes to standard output only; it returns when the level is
    valid. *)
Lemma logger_log_writes (Logger : class_name) (Level : log_level.t)
    (message : message_type Logger) :
  exists ws o,
    logger_log Logger Level message = (map stdout_write ws, o) /\
    (valid_level Level -> o = Done tt).
Proof.
  destruct Logger as [| | name]; cbn in message |- *; [| | destruct message].
  - unfold can_logger_log.
    destruct (to_string Level) as [level | |] eqn:E.
    + eexists [_], _. split; [reflexivity | reflexivity].
    + exists [], Aborted. split; [reflexivity |].
      intros H. destruct (to_string_valid Level H) as (n & En & _). congruence.
    + exists [], Undefined. split; [reflexivity |].
      intros H. destruct (to_string_valid Level H) as (n & En & _). congruence.
  - unfold file_logger_log.
    destruct (to_string Level) as [level | |] eqn:E.
    + eexists [_; _], _. split; [reflexivity | reflexivity].
    + exists [], Aborted. split; [reflexivity |].
      intros H. destruct (to_string_valid Level H) as (n & En & _). congruence.
    + exists [], Undefined. split; [reflexivity |].
      intros H. destruct (to_string_valid Level H) as (n & En & _). congruence.
Qed.

(** The lambda of [log] for a known class: it asks the builder for the
    message of that class, hands exactly that message to the logger at
    [Level], and nothing else happens before the logger writes. *)
Lemma log_lambda_known (Level : log_level.t) (CanId : can_id_t) (Logger : class_name) :
  known Logger = true ->
  exists create run,
    create_message CanId Logger = Instantiated create /\
    log_lambda Level (CanId := CanId) Logger = Instantiated run /\
    forall data_ builder logger,
    exists ws o,
      run data_ builder logger =
        ((create_message_call Logger data_
            :: log_call Logger logger Level (create data_)
            :: map stdout_write ws)%list, o) /\
      (valid_level Level -> o = Done tt).
Proof.
  intros H. unfold log_lambda.
  destruct (create_message CanId Logger) as [create |] eqn:E.
  - exists create. eexists. split; [reflexivity |]. split; [reflexivity |].
    intros data_ builder logger.
    destruct (logger_log_writes Logger Level (create data_)) as (ws & o & El & Ho).
    exists ws, o. split; [| exact Ho].
    cbv zeta. rewrite El. unfold emit, bind. reflexivity.
  - destruct (known_cases Logger H) as [-> | ->]; discriminate E.
Qed.

Lemma log_lambda_unknown (Level : log_level.t) (CanId : can_id_t) (Logger : class_name) :
  known Logger = false ->
  log_lambda Level (CanId := CanId) Logger = static_assert_failed.
Proof. intros H. destruct (unknown_cases Logger H) as [name ->]. reflexivity. Qed.

(** The identifier of a built frame message is the builder's. *)
Lemma create_message_frame_id (CanId : can_id_t) (Logger : class_name)
    (create : input_data -> message_type Logger) (data_ : input_data) :
  create_message CanId Logger = Instantiated create ->
  frame_id Logger (create data_) = if is_same_v Logger can_logger then [CanId] else [].
Proof.
  destruct Logger; cbn; intros E; try discriminate E;
    injection E as <-; reflexivity.
Qed.

(** * The dispatch routine *)

Lemma frame_id_can_loggers (CanId : can_id_t) (Logger : class_name) (rest : list class_name) :
  ((if is_same_v Logger can_logger then [CanId] else []) ++
     map (fun _ => CanId) (can_loggers rest))%list =
  map (fun _ => CanId) (can_loggers (Logger :: rest)).
Proof. unfold can_loggers. cbn. now destruct (is_same_v Logger can_logger). Qed.

(** [log] on a pack of known classes. *)
Lemma log_known (Level : log_level.t) (CanId : can_id_t) (Loggers : list class_name) :
  forallb known Loggers = true ->
  exists run,
    log Level (CanId := CanId) Loggers = Instantiated run /\
    forall data_ builder loggers,
      Forall (eq Level) (log_levels (trace (run data_ builder loggers))) /\
      Forall (eq CanId) (frame_ids (trace (run data_ builder loggers))) /\
      (valid_level Level ->
         result (run data_ builder loggers) = Done tt /\
         log_calls (trace (run data_ builder loggers)) = registered Loggers loggers /\
         builds (trace (run data_ builder loggers)) = Loggers /\
         log_levels (trace (run data_ builder loggers)) =
           repeat Level (List.length Loggers) /\
         frame_ids (trace (run data_ builder loggers)) =
           map (fun _ => CanId) (can_loggers Loggers)).
Proof.
  induction Loggers as [| Logger rest IH]; intros Hknown.
  - eexists. split; [reflexivity |]. intros data_ builder loggers. cbn.
    repeat split; constructor.
  - cbn in Hknown. apply andb_prop in Hknown as [HLogger Hrest].
    destruct (log_lambda_known Level CanId Logger HLogger)
      as (create & first & Hcreate & Hfirst & Hshape).
    destruct (IH Hrest) as (others & Hothers & Hrun).
    cbn [log]. rewrite Hfirst, Hothers.
    eexists. split; [reflexivity |].
    intros data_ builder loggers.
    destruct (Hshape data_ builder (fst loggers)) as (ws & o & Efirst & Hvalid).
    destruct (Hrun data_ builder (snd loggers)) as (Hlevels & Hids & Hrest_valid).
    pose proof (create_message_frame_id CanId Logger create data_ Hcreate) as Hid.
    destruct o as [[] | |].
    + rewrite (bind_done _ _ _ _ Efirst).
      unfold trace, result in *. cbn [fst snd].
      rewrite log_calls_call, builds_call, log_levels_call, frame_ids_call, Hid.
      split; [constructor; [reflexivity | exact Hlevels] |].
      split.
      { apply Forall_app. split; [| exact Hids].
        destruct (is_same_v Logger can_logger); repeat constructor. }
      intros Hv. destruct (Hrest_valid Hv) as (Hres & Hcalls & Hbuilds & Hlv & Hfr).
      split; [exact Hres |].
      split; [cbn [registered]; f_equal; exact Hcalls |].
      split; [f_equal; exact Hbuilds |].
      split; [cbn [List.length repeat]; f_equal; exact Hlv |].
      rewrite <- frame_id_can_loggers. f_equal. exact Hfr.
    + rewrite (bind_aborted _ _ _ Efirst). cbn [trace result fst snd].
      rewrite <- (app_nil_r (_ :: _ :: map stdout_write ws)).
      rewrite log_levels_call, frame_ids_call, Hid.
      split; [repeat constructor |].
      split; [destruct (is_same_v Logger can_logger); repeat constructor |].
      intros Hv. specialize (Hvalid Hv). discriminate Hvalid.
    + rewrite (bind_undefined _ _ _ Efirst). cbn [trace result fst snd].
      rewrite <- (app_nil_r (_ :: _ :: map stdout_write ws)).
      rewrite log_levels_call, frame_ids_call, Hid.
      split; [repeat constructor |].
      split; [destruct (is_same_v Logger can_logger); repeat constructor |].
      intros Hv. specialize (Hvalid Hv). discriminate Hvalid.
Qed.

(** [log] on a pack that names a class the builder does not know. *)
Lemma log_unknown (Level : log_level.t) (CanId : can_id_t) (Loggers : list class_name) :
  forallb known Loggers = false ->
  log Level (CanId := CanId) Loggers = static_assert_failed.
Proof.
  induction Loggers as [| Logger rest IH]; cbn [forallb log]; intros H;
    [discriminate H |].
  apply andb_false_iff in H as [H | H].
  - now rewrite (log_lambda_unknown Level CanId Logger H).
  - rewrite (IH H). now destruct (log_lambda Level Logger).
Qed.

(** * The component *)

Lemma valid_info : valid_level log_level.info.
Proof. level_bounds. Qed.

(** [process] on a component whose pack names known classes only. *)
Lemma process_known (Loggers : list class_name) :
  forallb known Loggers = true ->
  exists process,
    component.process Loggers = Instantiated process /\
    forall self input,
      result (process self input) = Done self /\
      log_calls (trace (process self input)) =
        registered Loggers (component.loggers_ self) /\
      builds (trace (process self input)) = Loggers /\
      log_levels (trace (process self input)) =
        repeat log_level.info (List.length Loggers) /\
      frame_ids (trace (process self input)) =
        map (fun _ => component.can_id) (can_loggers Loggers).
Proof.
  intros Hknown.
  destruct (log_known log_level.info component.can_id Loggers Hknown)
    as (run & Hlog & Hrun).
  unfold component.process. rewrite Hlog.
  eexists. split; [reflexivity |].
  intros self input. cbv beta.
  destruct (Hrun input (component.message_builder_ self) (component.loggers_ self))
    as (_ & _ & Hvalid).
  destruct (Hvalid valid_info) as (Hres & Hcalls & Hbuilds & Hlevels & Hids).
  rewrite (bind_done _ _ (trace (run input (component.message_builder_ self)
                                    (component.loggers_ self))) tt).
  - cbn [ret trace result fst snd]. rewrite app_nil_r.
    repeat split; assumption.
  - rewrite <- Hres. apply surjective_pairing.
Qed.

Lemma process_unknown (Loggers : list class_name) :
  forallb known Loggers = false ->
  component.process Loggers = static_assert_failed.
Proof.
  intros H. unfold component.process.
  now rewrite (log_unknown log_level.info component.can_id Loggers H).
Qed.

(** A sequence of calls of a [process] that returns the object it was
    given: the traces of the calls follow one another. *)
Lemma process_all_unchanged {Loggers : list class_name}
    (process : component.t Loggers -> input_data -> M (component.t Loggers))
    (self : component.t Loggers) (inputs : list input_data) :
  (forall input, result (process self input) = Done self) ->
  process_all process self inputs =
    (List.concat (map (fun input => trace (process self input)) inputs), Done self).
Proof.
  intros Hsame. induction inputs as [| input rest IH]; [reflexivity |].
  cbn [process_all map List.concat].
  rewrite (bind_done _ _ (trace (process self input)) self).
  - rewrite IH. reflexivity.
  - rewrite <- (Hsame input). apply surjective_pairing.
Qed.

Lemma log_calls_concat (ts : list (list event)) :
  log_calls (List.concat ts) = List.concat (map log_calls ts).
Proof.
  induction ts as [| t ts IH]; [reflexivity |].
  cbn [List.concat map]. unfold log_calls at 1. rewrite flat_map_app.
  fold (log_calls t). fold (log_calls (List.concat ts)). now rewrite IH.
Qed.

Lemma builds_concat (ts : list (list event)) :
  builds (List.concat ts) = List.concat (map builds ts).
Proof.
  induction ts as [| t ts IH]; [reflexivity |].
  cbn [List.concat map]. unfold builds at 1. rewrite flat_map_app.
  fold (builds t). fold (builds (List.concat ts)). now rewrite IH.
Qed.

Lemma concat_map_const {A B : Type} (f : A -> list B) (l : list B) (xs : list A) :
  (forall x, f x = l) -> List.concat (map f xs) = List.concat (repeat l (List.length xs)).
Proof.
  intros H. induction xs as [| x xs IH]; [reflexivity |].
  cbn. now rewrite H, IH.
Qed.

Lemma count_occ_concat_repeat (l : list sink) (s : sink) (n : nat) :
  count_occ sink_eq_dec (List.concat (repeat l n)) s = n * count_occ sink_eq_dec l s.
Proof.
  induction n as [| n IH]; [reflexivity |].
  cbn [repeat List.concat]. rewrite count_occ_app, IH. lia.
Qed.

Lemma length_concat_repeat {A : Type} (l : list A) (n : nat) :
  List.length (List.concat (repeat l n)) = n * List.length l.
Proof.
  induction n as [| n IH]; [reflexivity |].
  cbn [repeat List.concat]. rewrite length_app, IH. lia.
Qed.

Lemma registered_length (Loggers : list class_name) (loggers : tuple Loggers) :
  List.length (registered Loggers loggers) = List.length Loggers.
Proof.
  induction Loggers as [| Logger rest IH]; [reflexivity |].
  cbn. now rewrite IH.
Qed.

(** * The calls and the text of a dispatch *)

Lemma append_assoc (a b c : string) : (a ++ b) ++ c = a ++ (b ++ c).
Proof. induction a as [| x a IH]; cbn; [reflexivity | now rewrite IH]. Qed.

Lemma calls_app (t u : list event) : calls (t ++ u) = (calls t ++ calls u)%list.
Proof. apply filter_app. Qed.

Lemma calls_writes (ws : list string) : calls (map stdout_write ws) = [].
Proof. induction ws; [reflexivity | assumption]. Qed.

Lemma stdout_app (t u : list event) : stdout (t ++ u) = (stdout t ++ stdout u)%list.
Proof. apply flat_map_app. Qed.

Lemma stdout_writes (ws : list string) : stdout (map stdout_write ws) = ws.
Proof. induction ws as [| w ws IH]; [reflexivity |]. cbn. f_equal. exact IH. Qed.

Lemma output_app (t u : list event) : output (t ++ u) = output t ++ output u.
Proof.
  unfold output. rewrite stdout_app.
  induction (stdout t) as [| w ws IH]; [reflexivity |].
  cbn. now rewrite IH, append_assoc.
Qed.

(** Both sides of an equation between texts, as nested appends. *)
Ltac normalize_text :=
  cbn -[decimal decimal_signed newline String.append];
  change (decimal 0) with "0";
  repeat (rewrite ?append_assoc, ?append_empty_r;
          cbn -[decimal decimal_signed newline]).

(** The text a logger writes for the message built from a payload. *)
Lemma logger_log_text (Level : log_level.t) (CanId : can_id_t) (Logger : class_name)
    (create : input_data -> message_type Logger) (data_ : input_data) :
  valid_level Level ->
  create_message CanId Logger = Instantiated create ->
  exists ws,
    logger_log Logger Level (create data_) = (map stdout_write ws, Done tt) /\
    fold_right String.append "" ws = sink_line (level_name Level) CanId data_ Logger.
Proof.
  intros Hvalid Hcreate.
  destruct (to_string_valid Level Hvalid) as (name & E & _).
  unfold level_name. rewrite E.
  destruct Logger as [| | other]; cbn in Hcreate; [| | discriminate Hcreate];
    injection Hcreate as <-.
  - cbn [logger_log]. unfold can_logger_log. rewrite E.
    eexists [_]. split; [reflexivity |].
    unfold can_logger_line. normalize_text. reflexivity.
  - cbn [logger_log]. unfold file_logger_log. rewrite E.
    eexists [_; _]. split; [reflexivity |].
    unfold file_logger_line. normalize_text. reflexivity.
Qed.

(** The lambda of [log] at a valid level, for a known class: its two
    calls, then the writes of the logger, which make up the line of that
    logger. *)
Lemma log_lambda_valid (Level : log_level.t) (CanId : can_id_t) (Logger : class_name) :
  known Logger = true ->
  valid_level Level ->
  exists create run,
    create_message CanId Logger = Instantiated create /\
    log_lambda Level (CanId := CanId) Logger = Instantiated run /\
    forall data_ builder logger,
    exists ws,
      run data_ builder logger =
        ((create_message_call Logger data_
            :: log_call Logger logger Level (create data_)
            :: map stdout_write ws)%list, Done tt) /\
      fold_right String.append "" ws = sink_line (level_name Level) CanId data_ Logger.
Proof.
  intros Hknown Hvalid. unfold log_lambda.
  destruct (create_message CanId Logger) as [create |] eqn:E.
  - exists create. eexists. split; [reflexivity |]. split; [reflexivity |].
    intros data_ builder logger.
    destruct (logger_log_text Level CanId Logger create data_ Hvalid E) as (ws & El & Hws).
    exists ws. split; [| exact Hws].
    cbv zeta. rewrite El. reflexivity.
  - destruct (known_cases Logger Hknown) as [-> | ->]; discriminate E.
Qed.

(** [log] at a valid level on a pack of known classes: the calls it makes
    and the text it writes. *)
Lemma log_valid_trace (Level : log_level.t) (CanId : can_id_t) (Loggers : list class_name) :
  forallb known Loggers = true ->
  valid_level Level ->
  exists run,
    log Level (CanId := CanId) Loggers = Instantiated run /\
    forall data_ builder loggers,
      result (run data_ builder loggers) = Done tt /\
      calls (trace (run data_ builder loggers)) =
        flat_map (sink_calls Level CanId data_) (registered Loggers loggers) /\
      output (trace (run data_ builder loggers)) =
        sink_lines (level_name Level) CanId data_ Loggers.
Proof.
  intros Hknown Hvalid.
  induction Loggers as [| Logger rest IH].
  - eexists. split; [reflexivity |]. intros data_ builder loggers. repeat split.
  - cbn in Hknown. apply andb_prop in Hknown as [HLogger Hrest].
    destruct (log_lambda_valid Level CanId Logger HLogger Hvalid)
      as (create & first & Hcreate & Hfirst & Hshape).
    destruct (IH Hrest) as (others & Hothers & Hrun).
    cbn [log]. rewrite Hfirst, Hothers.
    eexists. split; [reflexivity |].
    intros data_ builder loggers.
    destruct (Hshape data_ builder (fst loggers)) as (ws & Efirst & Hws).
    destruct (Hrun data_ builder (snd loggers)) as (Hres & Hcalls & Houtput).
    rewrite (bind_done _ _ _ _ Efirst).
    unfold trace, result in *. cbn [fst snd].
    split; [exact Hres |]. split.
    + rewrite calls_app. cbn [registered flat_map].
      f_equal; [| exact Hcalls].
      unfold sink_calls. cbn [fst snd]. rewrite Hcreate.
      cbn [calls filter is_call]. fold (calls (map stdout_write ws)).
      now rewrite calls_writes.
    + rewrite output_app. unfold sink_lines. cbn [map fold_right].
      f_equal; [| exact Houtput].
      unfold output. cbn [stdout flat_map app]. fold (stdout (map stdout_write ws)).
      now rewrite stdout_writes.
Qed.

(** [process] on a component of known loggers: its result, its calls and
    its text. *)
Lemma process_trace
    (Loggers : list class_name) (self : component.t Loggers) (input : input_data) :
  forallb known Loggers = true ->
  exists process,
    component.process Loggers = Instantiated process /\
    result (process self input) = Done self /\
    calls (trace (process self input)) =
      flat_map (sink_calls log_level.info 10%Z input)
               (registered Loggers (component.loggers_ self)) /\
    output (trace (process self input)) = sink_lines "info" 10%Z input Loggers.
Proof.
  intros Hknown.
  destruct (log_valid_trace log_level.info component.can_id Loggers Hknown valid_info)
    as (run & Hlog & Hrun).
  unfold component.process. rewrite Hlog.
  eexists. split; [reflexivity |]. cbv beta.
  destruct (Hrun input (component.message_builder_ self) (component.loggers_ self))
    as (Hres & Hcalls & Houtput).
  rewrite (bind_done _ _ (trace (run input (component.message_builder_ self)
                                    (component.loggers_ self))) tt).
  - cbn [ret trace result fst snd]. rewrite app_nil_r.
    split; [reflexivity |]. split; [exact Hcalls | exact Houtput].
  - rewrite <- Hres. apply surjective_pairing.
Qed.

Lemma output_concat (ts : list (list event)) :
  output (List.concat ts) = fold_right String.append "" (map output ts).
Proof.
  induction ts as [| t ts IH]; [reflexivity |].
  cbn [List.concat map fold_right]. now rewrite output_app, IH.
Qed.

(** * The run of each sink inside a dispatch *)

Lemma bind_emit {B : Type} (e : event) (k : unit -> M B) :
  bind (emit e) k = (e :: trace (k tt), result (k tt)).
Proof. unfold emit, bind, trace, result. now destruct (k tt). Qed.

(** The lambda of [log] for a known class, in full: the two calls, then
    whatever the logger does with the message at [Level]. *)
Lemma log_lambda_run (Level : log_level.t) (CanId : can_id_t) (Logger : class_name) :
  known Logger = true ->
  exists create run,
    create_message CanId Logger = Instantiated create /\
    log_lambda Level (CanId := CanId) Logger = Instantiated run /\
    forall data_ builder logger,
      run data_ builder logger =
        (create_message_call Logger data_
           :: log_call Logger logger Level (create data_)
           :: trace (logger_log Logger Level (create data_)),
         result (logger_log Logger Level (create data_))).
Proof.
  intros Hknown. unfold log_lambda.
  destruct (create_message CanId Logger) as [create |] eqn:E.
  - exists create. eexists. split; [reflexivity |]. split; [reflexivity |].
    intros data_ builder logger. cbv beta zeta.
    rewrite bind_emit, bind_emit. reflexivity.
  - destruct (known_cases Logger Hknown) as [-> | ->]; discriminate E.
Qed.

(** The two loggers return at every valid level. *)
Lemma sinks_return_valid (Level : log_level.t) :
  valid_level Level -> sinks_return Level.
Proof.
  intros Hvalid Logger message _.
  destruct (logger_log_writes Logger Level message) as (ws & o & E & Ho).
  rewrite E. exact (Ho Hvalid).
Qed.

(** [log] when the [log] call on each sink returns: the trace is made of
    the runs of the sinks, one after the other in the order of the
    tuple. *)
Lemma log_trace_when_sinks_return
    (Level : log_level.t) (CanId : can_id_t) (Loggers : list class_name) :
  forallb known Loggers = true ->
  sinks_return Level ->
  exists run,
    log Level (CanId := CanId) Loggers = Instantiated run /\
    forall data_ builder loggers,
      result (run data_ builder loggers) = Done tt /\
      trace (run data_ builder loggers) =
        flat_map (sink_run Level CanId data_) (registered Loggers loggers).
Proof.
  intros Hknown Hreturn.
  induction Loggers as [| Logger rest IH].
  - eexists. split; [reflexivity |]. intros data_ builder loggers. split; reflexivity.
  - cbn in Hknown. apply andb_prop in Hknown as [HLogger Hrest].
    destruct (log_lambda_run Level CanId Logger HLogger)
      as (create & first & Hcreate & Hfirst & Hshape).
    destruct (IH Hrest) as (others & Hothers & Hrun).
    cbn [log]. rewrite Hfirst, Hothers.
    eexists. split; [reflexivity |].
    intros data_ builder loggers.
    pose proof (Hshape data_ builder (fst loggers)) as Efirst.
    rewrite (Hreturn Logger (create data_) HLogger) in Efirst.
    destruct (Hrun data_ builder (snd loggers)) as (Hres & Htrace).
    rewrite (bind_done _ _ _ _ Efirst).
    split; [exact Hres |].
    cbn [trace fst registered flat_map].
    f_equal; [| exact Htrace].
    unfold sink_run. cbn [fst snd]. now rewrite Hcreate.
Qed.

(** [process] when the [log] call on each sink returns. *)
Lemma process_trace_when_sinks_return
    (Loggers : list class_name) (self : component.t Loggers) (input : input_data) :
  forallb known Loggers = true ->
  sinks_return log_level.info ->
  exists process,
    component.process Loggers = Instantiated process /\
    result (process self input) = Done self /\
    trace (process self input) =
      flat_map (sink_run log_level.info 10%Z input)
               (registered Loggers (component.loggers_ self)).
Proof.
  intros Hknown Hreturn.
  destruct (log_trace_when_sinks_return log_level.info component.can_id Loggers
              Hknown Hreturn) as (run & Hlog & Hrun).
  unfold component.process. rewrite Hlog.
  eexists. split; [reflexivity |]. cbv beta.
  destruct (Hrun input (component.message_builder_ self) (component.loggers_ self))
    as (Hres & Htrace).
  rewrite (bind_done _ _ (trace (run input (component.message_builder_ self)
                                    (component.loggers_ self))) tt).
  - cbn [ret trace result fst snd]. rewrite app_nil_r.
    split; [reflexivity | exact Htrace].
  - rewrite <- Hres. apply surjective_pairing.
Qed.

(** * Properties of the dispatch *)

(** C1. On a component with N sinks, one [process] call, the [log] call
    on each sink returning (its writes to standard output succeed), runs
    every registered sink once, in the order of registration: the trace of
    the call is, sink after sink, the build of the sink's message, the
    [log] call on the sink and all that this [log] does with the message,
    so each sink writes its line; there are N message builds and N [log]
    calls, and the call returns.  M calls in a row go through the
    registered sinks M times in that same order, so each sink is run M
    times as often as it is registered (M times when the sinks are
    distinct). *)
Theorem process_invokes_each_sink_once_in_order
    (Loggers : list class_name) (self : component.t Loggers) :
  forallb known Loggers = true ->
  sinks_return log_level.info ->
  exists process,
    component.process Loggers = Instantiated process /\
    (forall input,
       result (process self input) = Done self /\
       log_calls (trace (process self input)) =
         registered Loggers (component.loggers_ self) /\
       builds (trace (process self input)) = Loggers /\
       List.length (builds (trace (process self input))) = List.length Loggers /\
       List.length (log_calls (trace (process self input))) = List.length Loggers /\
       trace (process self input) =
         flat_map (sink_run log_level.info 10%Z input)
                  (registered Loggers (component.loggers_ self)) /\
       output (trace (process self input)) = sink_lines "info" 10%Z input Loggers) /\
    (forall inputs,
       result (process_all process self inputs) = Done self /\
       log_calls (trace (process_all process self inputs)) =
         List.concat (repeat (registered Loggers (component.loggers_ self))
                             (List.length inputs)) /\
       List.length (builds (trace (process_all process self inputs))) =
         List.length inputs * List.length Loggers /\
       (forall s,
          count_occ sink_eq_dec (log_calls (trace (process_all process self inputs))) s =
          List.length inputs *
            count_occ sink_eq_dec (registered Loggers (component.loggers_ self)) s) /\
       (NoDup (registered Loggers (component.loggers_ self)) ->
        forall s,
          In s (registered Loggers (component.loggers_ self)) ->
          count_occ sink_eq_dec (log_calls (trace (process_all process self inputs))) s =
          List.length inputs) /\
       trace (process_all process self inputs) =
         List.concat
           (map (fun input =>
                   flat_map (sink_run log_level.info 10%Z input)
                            (registered Loggers (component.loggers_ self)))
                inputs)).
Proof.
  intros Hknown Hreturn.
  destruct (process_known Loggers Hknown) as (process & Hprocess & Hcall).
  assert (forall input,
            result (process self input) = Done self /\
            trace (process self input) =
              flat_map (sink_run log_level.info 10%Z input)
                       (registered Loggers (component.loggers_ self))) as Hruns.
  { intros input.
    destruct (process_trace_when_sinks_return Loggers self input Hknown Hreturn)
      as (process' & Hprocess' & Hres & Htrace).
    rewrite Hprocess in Hprocess'. injection Hprocess' as <-. split; assumption. }
  assert (forall input,
            output (trace (process self input)) = sink_lines "info" 10%Z input Loggers)
    as Hlines.
  { intros input.
    destruct (process_trace Loggers self input Hknown)
      as (process' & Hprocess' & _ & _ & Houtput).
    rewrite Hprocess in Hprocess'. injection Hprocess' as <-. exact Houtput. }
  exists process. split; [exact Hprocess |]. split.
  - intros input.
    destruct (Hcall self input) as (_ & Hcalls & Hbuilds & _ & _).
    split; [apply (Hruns input) |].
    rewrite Hcalls, Hbuilds, registered_length.
    split; [reflexivity |]. split; [reflexivity |].
    split; [reflexivity |]. split; [reflexivity |].
    split; [apply (Hruns input) | apply Hlines].
  - intros inputs.
    rewrite (process_all_unchanged process self inputs (fun input => proj1 (Hruns input))).
    cbn [trace result fst snd].
    assert (log_calls (List.concat (map (fun input => trace (process self input)) inputs)) =
            List.concat (repeat (registered Loggers (component.loggers_ self))
                                (List.length inputs))) as Hcalls.
    { rewrite log_calls_concat, map_map.
      apply concat_map_const. intros input. apply (Hcall self input). }
    assert (builds (List.concat (map (fun input => trace (process self input)) inputs)) =
            List.concat (repeat Loggers (List.length inputs))) as Hbuilds.
    { rewrite builds_concat, map_map.
      apply concat_map_const. intros input. apply (Hcall self input). }
    rewrite Hcalls, Hbuilds.
    split; [reflexivity |]. split; [reflexivity |].
    split; [apply length_concat_repeat |].
    split; [intros s; apply count_occ_concat_repeat |].
    split.
    + intros Hdistinct s Hin. rewrite count_occ_concat_repeat.
      rewrite (proj1 (NoDup_count_occ' sink_eq_dec _) Hdistinct s Hin). lia.
    + f_equal. apply map_ext. intros input. apply (Hruns input).
Qed.

Lemma process_invokes_each_sink_once_in_order_witness :
  exists process,
    component.process [can_logger; file_logger] = Instantiated process /\
    log_calls (trace (process (component.component (Loggers := [can_logger; file_logger])
                                                   (5, (9, tt)))
                              {| length := 4%N; width := 5%N; height := 6%N |})) =
      [(can_logger, 5); (file_logger, 9)] /\
    output (trace (process (component.component (Loggers := [can_logger; file_logger])
                                                (5, (9, tt)))
                           {| length := 4%N; width := 5%N; height := 6%N |})) =
      "info: can logger: can id: 10, data: [4, 5, 6, 0, 0, 0]" ++ newline ++
      "info: file logger: input data: length: 4, width: 5, height: 6" ++ newline.
Proof.
  destruct (process_invokes_each_sink_once_in_order [can_logger; file_logger]
              (component.component (Loggers := [can_logger; file_logger]) (5, (9, tt))))
    as (process & Hprocess & Hone & _).
  - reflexivity.
  - intros [| | other] message Hknown;
      [reflexivity | reflexivity | discriminate Hknown].
  - exists process. split; [exact Hprocess |].
    destruct (Hone {| length := 4%N; width := 5%N; height := 6%N |})
      as (_ & Hcalls & _ & _ & _ & _ & Houtput).
    split; [exact Hcalls | exact Houtput].
Defined.

(** C4, as the code has it.  The level is a template parameter of the
    dispatch routine [log] (called with a [message_builder]): every [log]
    call it makes on a sink carries that level, and for a valid level it
    runs every sink of the tuple, in order, at that level: the trace is,
    sink after sink, the build, the [log] call and all that the sink's
    [log] does at that level, and every line written starts with the name
    of that level.  [component::process] has no level parameter: all the
    sinks it runs are run at level [info] and write lines starting with
    ["info"]. *)
Theorem level_is_parameter_of_log_and_info_in_process (Loggers : list class_name) :
  forallb known Loggers = true ->
  (forall Level CanId,
   exists run,
     log Level (CanId := CanId) Loggers = Instantiated run /\
     forall data_ builder loggers,
       Forall (eq Level) (log_levels (trace (run data_ builder loggers))) /\
       (valid_level Level ->
          result (run data_ builder loggers) = Done tt /\
          log_calls (trace (run data_ builder loggers)) = registered Loggers loggers /\
          log_levels (trace (run data_ builder loggers)) =
            repeat Level (List.length Loggers) /\
          trace (run data_ builder loggers) =
            flat_map (sink_run Level CanId data_) (registered Loggers loggers) /\
          output (trace (run data_ builder loggers)) =
            sink_lines (level_name Level) CanId data_ Loggers)) /\
  (exists process,
     component.process Loggers = Instantiated process /\
     forall self input,
       log_levels (trace (process self input)) =
         repeat log_level.info (List.length Loggers) /\
       trace (process self input) =
         flat_map (sink_run log_level.info 10%Z input)
                  (registered Loggers (component.loggers_ self)) /\
       output (trace (process self input)) = sink_lines "info" 10%Z input Loggers).
Proof.
  intros Hknown. split.
  - intros Level CanId.
    destruct (log_known Level CanId Loggers Hknown) as (run & Hlog & Hrun).
    exists run. split; [exact Hlog |].
    intros data_ builder loggers.
    destruct (Hrun data_ builder loggers) as (Hlevels & _ & Hvalid).
    split; [exact Hlevels |].
    intros Hv. destruct (Hvalid Hv) as (Hres & Hcalls & _ & Hlv & _).
    split; [exact Hres |]. split; [exact Hcalls |]. split; [exact Hlv |].
    split.
    + destruct (log_trace_when_sinks_return Level CanId Loggers Hknown
                  (sinks_return_valid Level Hv)) as (run' & Hlog' & Hrun').
      rewrite Hlog in Hlog'. injection Hlog' as <-.
      apply (Hrun' data_ builder loggers).
    + destruct (log_valid_trace Level CanId Loggers Hknown Hv) as (run' & Hlog' & Hrun').
      rewrite Hlog in Hlog'. injection Hlog' as <-.
      apply (Hrun' data_ builder loggers).
  - destruct (process_known Loggers Hknown) as (process & Hprocess & Hcall).
    exists process. split; [exact Hprocess |].
    intros self input.
    split; [apply (Hcall self input) |]. split.
    + destruct (process_trace_when_sinks_return Loggers self input Hknown
                  (sinks_return_valid log_level.info valid_info))
        as (process' & Hprocess' & _ & Htrace).
      rewrite Hprocess in Hprocess'. injection Hprocess' as <-. exact Htrace.
    + destruct (process_trace Loggers self input Hknown)
        as (process' & Hprocess' & _ & _ & Houtput).
      rewrite Hprocess in Hprocess'. injection Hprocess' as <-. exact Houtput.
Qed.

Lemma level_is_parameter_of_log_and_info_in_process_witness :
  (exists run,
     log log_level.warning (CanId := 10%Z) [can_logger; file_logger] = Instantiated run /\
     log_levels (trace (run {| length := 1%N; width := 2%N; height := 3%N |}
                            (message_builder_object 10%Z) (5, (9, tt)))) =
       [log_level.warning; log_level.warning] /\
     output (trace (run {| length := 1%N; width := 2%N; height := 3%N |}
                        (message_builder_object 10%Z) (5, (9, tt)))) =
       "warning: can logger: can id: 10, data: [1, 2, 3, 0, 0, 0]" ++ newline ++
       "warning: file logger: input data: length: 1, width: 2, height: 3" ++ newline) /\
  (exists process,
     component.process [can_logger; file_logger] = Instantiated process /\
     log_levels (trace (process (component.component (Loggers := [can_logger; file_logger])
                                                     (5, (9, tt)))
                                {| length := 1%N; width := 2%N; height := 3%N |})) =
       [log_level.info; log_level.info] /\
     output (trace (process (component.component (Loggers := [can_logger; file_logger])
                                                 (5, (9, tt)))
                            {| length := 1%N; width := 2%N; height := 3%N |})) =
       "info: can logger: can id: 10, data: [1, 2, 3, 0, 0, 0]" ++ newline ++
       "info: file logger: input data: length: 1, width: 2, height: 3" ++ newline).
Proof.
  destruct (level_is_parameter_of_log_and_info_in_process [can_logger; file_logger])
    as (Hlog & process & Hprocess & Hinfo).
  - reflexivity.
  - split.
    + destruct (Hlog log_level.warning 10%Z) as (run & Hrun & Hlevels).
      exists run. split; [exact Hrun |].
      destruct (Hlevels {| length := 1%N; width := 2%N; height := 3%N |}
                        (message_builder_object 10%Z) (5, (9, tt))) as (_ & Hvalid).
      destruct Hvalid as (_ & _ & Hlv & _ & Houtput); [level_bounds |].
      split; [exact Hlv | exact Houtput].
    + exists process. split; [exact Hprocess |].
      destruct (Hinfo (component.component (Loggers := [can_logger; file_logger])
                                           (5, (9, tt)))
                      {| length := 1%N; width := 2%N; height := 3%N |})
        as (Hlv & _ & Houtput).
      split; [exact Hlv | exact Houtput].
Defined.

(** C4, as the claim has it, fails: [process] cannot be called at a level
    of the caller's choice.  On the component of [main] its two [log] calls
    are at [info], not at [warning]. *)
Lemma process_level_is_not_chosen_by_caller :
  exists process,
    component.process [can_logger; file_logger] = Instantiated process /\
    log_levels (trace (process (component.component (Loggers := [can_logger; file_logger])
                                                     (0, (1, tt)))
                                {| length := 1%N; width := 2%N; height := 3%N |})) =
      [log_level.info; log_level.info] /\
    log_levels (trace (process (component.component (Loggers := [can_logger; file_logger])
                                                     (0, (1, tt)))
                                {| length := 1%N; width := 2%N; height := 3%N |})) <>
      [log_level.warning; log_level.warning].
Proof.
  eexists. split; [reflexivity |]. split; [reflexivity | discriminate].
Qed.

(** C6. [main]: the component over the can logger and the file logger,
    with identifier 10, processes the payload (1, 2, 3).  Two sinks are
    called, in this order: the can logger at [info] with the message
    (10, [1,2,3,0,0,0]), which writes its line, then the file logger at
    [info] with the three values, which writes
    ["input data: length: 1, width: 2, height: 3"] after its prefix. *)
Theorem main_emits_frame_then_text (can_logger_ file_logger_ : address) :
  main can_logger_ file_logger_ =
  Instantiated
    ([create_message_call can_logger {| length := 1%N; width := 2%N; height := 3%N |};
      log_call can_logger can_logger_ log_level.info
        {| can_id := 10%Z; data := [1%N; 2%N; 3%N; 0%N; 0%N; 0%N] |};
      stdout_write ("info: can logger: can id: 10, data: [1, 2, 3, 0, 0, 0]" ++ newline);
      create_message_call file_logger {| length := 1%N; width := 2%N; height := 3%N |};
      log_call file_logger file_logger_ log_level.info
        {| Format := "input data: length: {}, width: {}, height: {}";
           args := [arg_size_t 1%N; arg_size_t 2%N; arg_size_t 3%N] |};
      stdout_write "info: file logger: ";
      stdout_write ("input data: length: 1, width: 2, height: 3" ++ newline)],
     Done 0%Z).
Proof. reflexivity. Qed.

(** C7. Building a message cannot fail at run time.  For a class the
    builder knows, [create_message] is instantiated to a function of the
    payload alone, and in the dispatch the message it returns is handed to
    the logger with nothing written in between.  For any other class the
    instantiation is rejected, and so is [process] of every component that
    names such a class: no function exists that could run.  When all the
    classes are known [process] is instantiated and every call returns. *)
Theorem create_message_total_and_unknown_class_rejected :
  (forall CanId Logger,
     known Logger = true ->
     exists create, create_message CanId Logger = Instantiated create) /\
  (forall Level CanId Logger,
     known Logger = true ->
     exists create run,
       create_message CanId Logger = Instantiated create /\
       log_lambda Level (CanId := CanId) Logger = Instantiated run /\
       forall data_ builder logger,
       exists ws o,
         run data_ builder logger =
           ((create_message_call Logger data_
               :: log_call Logger logger Level (create data_)
               :: map stdout_write ws)%list, o)) /\
  (forall CanId Logger,
     known Logger = false -> create_message CanId Logger = static_assert_failed) /\
  (forall Loggers,
     forallb known Loggers = false ->
     component.process Loggers = static_assert_failed) /\
  (forall Loggers,
     forallb known Loggers = true ->
     exists process,
       component.process Loggers = Instantiated process /\
       forall self input, result (process self input) = Done self).
Proof.
  split; [| split; [| split; [| split]]].
  - intros CanId Logger H.
    destruct (known_cases Logger H) as [-> | ->]; eexists; reflexivity.
  - intros Level CanId Logger H.
    destruct (log_lambda_known Level CanId Logger H)
      as (create & run & Hcreate & Hrun & Hshape).
    exists create, run. split; [exact Hcreate |]. split; [exact Hrun |].
    intros data_ builder logger.
    destruct (Hshape data_ builder logger) as (ws & o & E & _).
    now exists ws, o.
  - intros CanId Logger H.
    destruct (unknown_cases Logger H) as [name ->]. reflexivity.
  - exact process_unknown.
  - intros Loggers H.
    destruct (process_known Loggers H) as (process & Hprocess & Hcall).
    exists process. split; [exact Hprocess |].
    intros self input. apply (Hcall self input).
Qed.

Lemma create_message_total_and_unknown_class_rejected_witness :
  (exists create, create_message 10%Z file_logger = Instantiated create) /\
  create_message 10%Z (other_class "udp_logger") = static_assert_failed /\
  component.process [can_logger; other_class "udp_logger"] = static_assert_failed /\
  (exists process,
     component.process [file_logger; can_logger] = Instantiated process /\
     forall self input, result (process self input) = Done self).
Proof.
  destruct create_message_total_and_unknown_class_rejected
    as (Htotal & _ & Hrejected & Hprocess_rejected & Hprocess).
  split; [| split; [| split]].
  - apply (Htotal 10%Z file_logger). reflexivity.
  - apply (Hrejected 10%Z (other_class "udp_logger")). reflexivity.
  - apply (Hprocess_rejected [can_logger; other_class "udp_logger"]). reflexivity.
  - apply (Hprocess [file_logger; can_logger]). reflexivity.
Defined.

(** C8. [process] does not change the component: every call returns the
    object it was given, with the same tuple of sink references and the
    same builder (a builder has one value only), so in any sequence of
    calls each call behaves as it would on the component just built. *)
Theorem process_leaves_component_unchanged
    (Loggers : list class_name) (self : component.t Loggers) :
  forallb known Loggers = true ->
  exists process,
    component.process Loggers = Instantiated process /\
    (forall input,
     exists self',
       result (process self input) = Done self' /\
       component.loggers_ self' = component.loggers_ self /\
       component.message_builder_ self' = component.message_builder_ self /\
       self' = self) /\
    (forall builder : component.message_builder_type,
       builder = component.message_builder_ self) /\
    (forall inputs,
       result (process_all process self inputs) = Done self /\
       trace (process_all process self inputs) =
         List.concat (map (fun input => trace (process self input)) inputs)).
Proof.
  intros Hknown.
  destruct (process_known Loggers Hknown) as (process & Hprocess & Hcall).
  exists process. split; [exact Hprocess |]. split; [| split].
  - intros input. exists self. repeat split. apply (Hcall self input).
  - intros builder. destruct builder, (component.message_builder_ self). reflexivity.
  - intros inputs.
    rewrite (process_all_unchanged process self inputs (fun input => proj1 (Hcall self input))).
    split; reflexivity.
Qed.

Lemma process_leaves_component_unchanged_witness :
  exists process,
    component.process [can_logger; file_logger] = Instantiated process /\
    result (process_all process
              (component.component (Loggers := [can_logger; file_logger]) (5, (9, tt)))
              [{| length := 1%N; width := 2%N; height := 3%N |};
               {| length := 7%N; width := 8%N; height := 9%N |}]) =
      Done (component.component (Loggers := [can_logger; file_logger]) (5, (9, tt))).
Proof.
  destruct (process_leaves_component_unchanged [can_logger; file_logger]
              (component.component (Loggers := [can_logger; file_logger]) (5, (9, tt))))
    as (process & Hprocess & _ & _ & Hall).
  - reflexivity.
  - exists process. split; [exact Hprocess |].
    apply (Hall [{| length := 1%N; width := 2%N; height := 3%N |};
                 {| length := 7%N; width := 8%N; height := 9%N |}]).
Defined.

(** C9. A component over no sink at all is accepted: its constructor
    takes the empty tuple, [process] is instantiated, and a call returns
    with no message built, no [log] call and nothing written. *)
Theorem process_without_sinks (input : input_data) :
  exists process,
    component.process [] = Instantiated process /\
    process (component.component (Loggers := []) tt) input =
      ([], Done (component.component (Loggers := []) tt)) /\
    builds (trace (process (component.component (Loggers := []) tt) input)) = [] /\
    log_calls (trace (process (component.component (Loggers := []) tt) input)) = [] /\
    stdout (trace (process (component.component (Loggers := []) tt) input)) = [].
Proof.
  eexists. split; [reflexivity |]. repeat split.
Qed.

(** C10. The identifier of the frame messages is the constant 10 of the
    class [component]: whatever the sinks and the payload, each can logger
    of the component receives a message with identifier 10, and no other
    frame message is built. *)
Theorem frame_identifier_is_ten
    (Loggers : list class_name) (self : component.t Loggers) (input : input_data) :
  forallb known Loggers = true ->
  component.can_id = 10%Z /\
  exists process,
    component.process Loggers = Instantiated process /\
    frame_ids (trace (process self input)) = map (fun _ => 10%Z) (can_loggers Loggers) /\
    Forall (eq 10%Z) (frame_ids (trace (process self input))).
Proof.
  intros Hknown. split; [reflexivity |].
  destruct (process_known Loggers Hknown) as (process & Hprocess & Hcall).
  exists process. split; [exact Hprocess |].
  destruct (Hcall self input) as (_ & _ & _ & _ & Hids).
  rewrite Hids. split; [reflexivity |].
  apply Forall_forall. intros x Hin. apply in_map_iff in Hin as (? & <- & _). reflexivity.
Qed.

Lemma frame_identifier_is_ten_witness :
  exists process,
    component.process [can_logger; file_logger; can_logger] = Instantiated process /\
    frame_ids (trace (process (component.component
                                 (Loggers := [can_logger; file_logger; can_logger])
                                 (5, (9, (5, tt))))
                              {| length := 4%N; width := 5%N; height := 6%N |})) =
      [10%Z; 10%Z].
Proof.
  destruct (frame_identifier_is_ten [can_logger; file_logger; can_logger]
              (component.component (Loggers := [can_logger; file_logger; can_logger])
                                   (5, (9, (5, tt))))
              {| length := 4%N; width := 5%N; height := 6%N |})
    as (_ & process & Hprocess & Hids & _).
  - reflexivity.
  - exists process. split; [exact Hprocess | exact Hids].
Defined.

(** * Further properties of the levels and of the loggers *)

(** X1. Over the values of the underlying type, [to_string] returns a name
    exactly on the four enumerators, and then one of the four names; it
    aborts exactly on the values at or beyond [count]; on a negative value
    the assertion passes and the array access is out of range. *)
Theorem to_string_outcome_by_range (level : log_level.t) :
  int_range level ->
  ((exists name, to_string level = Done name) <-> valid_level level) /\
  (forall name, to_string level = Done name ->
     In name ["info"; "warning"; "error"; "fatal"]) /\
  (to_string level = Aborted <-> (log_level.count <= level)%Z) /\
  (to_string level = Undefined <-> (level < 0)%Z).
Proof.
  intros Hrange. unfold int_range in Hrange.
  assert ((level < 0)%Z \/ valid_level level \/ (log_level.count <= level)%Z) as Hcases
    by level_bounds.
  destruct Hcases as [Hneg | [Hvalid | Hbeyond]].
  - rewrite (to_string_negative level) by lia.
    split; [split; [intros [name E]; discriminate E | intros Hv; level_bounds] |].
    split; [intros name E; discriminate E |].
    split; [split; [intros E; discriminate E | intros Hc; level_bounds] |].
    split; [intros _; exact Hneg | reflexivity].
  - destruct (to_string_valid level Hvalid) as (name & E & Hnth).
    rewrite E.
    split; [split; [intros _; exact Hvalid | intros _; now exists name] |].
    split; [intros name' E'; injection E' as <-; exact (nth_error_In _ _ Hnth) |].
    split; [split; [intros E'; discriminate E' | intros Hc; level_bounds] |].
    split; [intros E'; discriminate E' | intros Hn; level_bounds].
  - rewrite (to_string_beyond level Hbeyond).
    split; [split; [intros [name E]; discriminate E | intros Hv; level_bounds] |].
    split; [intros name E; discriminate E |].
    split; [split; [intros _; exact Hbeyond | reflexivity] |].
    split; [intros E; discriminate E | intros Hn; level_bounds].
Qed.

Lemma to_string_outcome_by_range_witness :
  to_string (-1)%Z = Undefined /\ to_string 4%Z = Aborted /\
  exists name, to_string 2%Z = Done name.
Proof.
  split; [| split].
  - apply (to_string_outcome_by_range (-1)%Z); unfold int_range; lia.
  - apply (to_string_outcome_by_range 4%Z); unfold int_range; level_bounds.
  - apply (to_string_outcome_by_range 2%Z); unfold int_range; level_bounds.
Defined.

(** X2. A logger called at a level at or beyond [count] aborts before it
    writes anything, whatever the message: the name of the level is asked
    for before the first write. *)
Theorem loggers_abort_before_writing (Level : log_level.t)
    (frame : can_logger_message) (text : file_logger_message) :
  (log_level.count <= Level)%Z ->
  can_logger_log Level frame = ([], Aborted) /\
  file_logger_log Level text = ([], Aborted).
Proof.
  intros H. unfold can_logger_log, file_logger_log.
  rewrite (to_string_beyond Level H). split; reflexivity.
Qed.

Lemma loggers_abort_before_writing_witness :
  can_logger_log log_level.count
    {| can_id := 10%Z; data := [1%N; 2%N; 3%N; 0%N; 0%N; 0%N] |} = ([], Aborted) /\
  file_logger_log log_level.count
    {| Format := "{}"; args := [arg_size_t 1%N] |} = ([], Aborted).
Proof.
  apply (loggers_abort_before_writing log_level.count). level_bounds.
Defined.

(** * Further properties of the dispatch *)

(** X3. Dispatch at a level at or beyond [count].  The compiler accepts
    it; at run time the first sink's message is built, [log] is called on
    that sink and aborts: nothing is written and no other sink is reached.
    On the empty pack the same call returns. *)
Theorem log_beyond_count_aborts_in_first_sink
    (Level : log_level.t) (CanId : can_id_t) (Logger : class_name)
    (rest : list class_name) :
  (log_level.count <= Level)%Z ->
  forallb known (Logger :: rest) = true ->
  (exists create run,
     create_message CanId Logger = Instantiated create /\
     log Level (CanId := CanId) (Logger :: rest) = Instantiated run /\
     forall data_ builder loggers,
       run data_ builder loggers =
         ([create_message_call Logger data_;
           log_call Logger (fst loggers) Level (create data_)], Aborted)) /\
  (exists run,
     log Level (CanId := CanId) [] = Instantiated run /\
     forall data_ builder loggers, run data_ builder loggers = ([], Done tt)).
Proof.
  intros Hbeyond Hknown. split; [| eexists; split; reflexivity].
  pose proof Hknown as Hall.
  cbn in Hknown. apply andb_prop in Hknown as [HLogger Hrest].
  destruct (log_known Level CanId rest Hrest) as (others & Hothers & _).
  destruct (known_cases Logger HLogger) as [-> | ->].
  - eexists. eexists. split; [reflexivity |].
    cbn [log]. rewrite Hothers. cbn [log_lambda create_message].
    split; [reflexivity |].
    intros data_ builder loggers. cbv zeta.
    cbn [logger_log]. unfold can_logger_log.
    rewrite (to_string_beyond Level Hbeyond). reflexivity.
  - eexists. eexists. split; [reflexivity |].
    cbn [log]. rewrite Hothers. cbn [log_lambda create_message].
    split; [reflexivity |].
    intros data_ builder loggers. cbv zeta.
    cbn [logger_log]. unfold file_logger_log.
    rewrite (to_string_beyond Level Hbeyond). reflexivity.
Qed.

Lemma log_beyond_count_aborts_in_first_sink_witness :
  exists create run,
    create_message 10%Z file_logger = Instantiated create /\
    log log_level.count (CanId := 10%Z) [file_logger; can_logger] = Instantiated run /\
    run {| length := 1%N; width := 2%N; height := 3%N |}
        (message_builder_object 10%Z) (5, (9, tt)) =
      ([create_message_call file_logger {| length := 1%N; width := 2%N; height := 3%N |};
        log_call file_logger 5 log_level.count
          (create {| length := 1%N; width := 2%N; height := 3%N |})], Aborted).
Proof.
  destruct (log_beyond_count_aborts_in_first_sink log_level.count 10%Z
              file_logger [can_logger])
    as ((create & run & Hcreate & Hrun & Habort) & _).
  - level_bounds.
  - reflexivity.
  - exists create, run. split; [exact Hcreate |]. split; [exact Hrun |].
    apply (Habort {| length := 1%N; width := 2%N; height := 3%N |}
                  (message_builder_object 10%Z) (5, (9, tt))).
Defined.

(** X4. The run of [log] at a valid level, for any builder identifier: it
    proceeds sink after sink in the order of the tuple, and for each sink
    the message is built from the payload given to [log], then [log] is
    called on that sink and the sink's [log] runs at that level on exactly
    that message, writes included, before the next sink's message is
    built; then the call returns. *)
Theorem log_builds_then_logs_sink_by_sink
    (Level : log_level.t) (CanId : can_id_t) (Loggers : list class_name) :
  forallb known Loggers = true ->
  valid_level Level ->
  exists run,
    log Level (CanId := CanId) Loggers = Instantiated run /\
    forall data_ builder loggers,
      result (run data_ builder loggers) = Done tt /\
      calls (trace (run data_ builder loggers)) =
        flat_map (sink_calls Level CanId data_) (registered Loggers loggers) /\
      trace (run data_ builder loggers) =
        flat_map (sink_run Level CanId data_) (registered Loggers loggers).
Proof.
  intros Hknown Hvalid.
  destruct (log_valid_trace Level CanId Loggers Hknown Hvalid) as (run & Hlog & Hrun).
  exists run. split; [exact Hlog |].
  intros data_ builder loggers.
  destruct (Hrun data_ builder loggers) as (Hres & Hcalls & _).
  split; [exact Hres |]. split; [exact Hcalls |].
  destruct (log_trace_when_sinks_return Level CanId Loggers Hknown
              (sinks_return_valid Level Hvalid)) as (run' & Hlog' & Hrun').
  rewrite Hlog in Hlog'. injection Hlog' as <-.
  apply (Hrun' data_ builder loggers).
Qed.

Lemma log_builds_then_logs_sink_by_sink_witness :
  exists run,
    log log_level.error (CanId := 7%Z) [file_logger; can_logger] = Instantiated run /\
    trace (run {| length := 1%N; width := 2%N; height := 3%N |}
               (message_builder_object 7%Z) (5, (9, tt))) =
      [create_message_call file_logger {| length := 1%N; width := 2%N; height := 3%N |};
       log_call file_logger 5 log_level.error
         {| Format := "input data: length: {}, width: {}, height: {}";
            args := [arg_size_t 1%N; arg_size_t 2%N; arg_size_t 3%N] |};
       stdout_write "error: file logger: ";
       stdout_write ("input data: length: 1, width: 2, height: 3" ++ newline);
       create_message_call can_logger {| length := 1%N; width := 2%N; height := 3%N |};
       log_call can_logger 9 log_level.error
         {| can_id := 7%Z; data := [1%N; 2%N; 3%N; 0%N; 0%N; 0%N] |};
       stdout_write ("error: can logger: can id: 7, data: [1, 2, 3, 0, 0, 0]" ++ newline)].
Proof.
  destruct (log_builds_then_logs_sink_by_sink log_level.error 7%Z [file_logger; can_logger])
    as (run & Hlog & Hrun).
  - reflexivity.
  - level_bounds.
  - exists run. split; [exact Hlog |].
    apply (Hrun {| length := 1%N; width := 2%N; height := 3%N |}
                (message_builder_object 7%Z) (5, (9, tt))).
Defined.

(** X5. The text [log] writes at a valid level: one line per sink, in the
    order of the tuple.  The line of a can logger is
    ["<level>: can logger: can id: <id>, data: [<length>, <width>, <height>, 0, 0, 0]"],
    the line of a file logger is
    ["<level>: file logger: input data: length: <length>, width: <width>, height: <height>"],
    with the name of the level and the decimal text of the numbers.  The
    text does not depend on which objects the references designate. *)
Theorem log_writes_one_line_per_sink
    (Level : log_level.t) (CanId : can_id_t) (Loggers : list class_name) :
  forallb known Loggers = true ->
  valid_level Level ->
  exists run,
    log Level (CanId := CanId) Loggers = Instantiated run /\
    forall data_ builder loggers,
      output (trace (run data_ builder loggers)) =
        sink_lines (level_name Level) CanId data_ Loggers.
Proof.
  intros Hknown Hvalid.
  destruct (log_valid_trace Level CanId Loggers Hknown Hvalid) as (run & Hlog & Hrun).
  exists run. split; [exact Hlog |].
  intros data_ builder loggers. apply (Hrun data_ builder loggers).
Qed.

Lemma log_writes_one_line_per_sink_witness :
  exists run,
    log log_level.fatal (CanId := (-7)%Z) [file_logger; can_logger] = Instantiated run /\
    output (trace (run {| length := 12%N; width := 0%N; height := 345%N |}
                       (message_builder_object (-7)%Z) (5, (9, tt)))) =
      "fatal: file logger: input data: length: 12, width: 0, height: 345" ++ newline ++
      "fatal: can logger: can id: -7, data: [12, 0, 345, 0, 0, 0]" ++ newline.
Proof.
  destruct (log_writes_one_line_per_sink log_level.fatal (-7)%Z [file_logger; can_logger])
    as (run & Hlog & Hrun).
  - reflexivity.
  - level_bounds.
  - exists run. split; [exact Hlog |].
    apply (Hrun {| length := 12%N; width := 0%N; height := 345%N |}
                (message_builder_object (-7)%Z) (5, (9, tt))).
Defined.

(** X6. What [process] does on any component of known loggers, for any
    payload: for each sink in turn it builds the message with identifier
    10 from the payload and calls [log] on the sink at [info] with it, and
    the text on standard output is one line per sink, each starting with
    ["info"]. *)
Theorem process_calls_and_text
    (Loggers : list class_name) (self : component.t Loggers) (input : input_data) :
  forallb known Loggers = true ->
  exists process,
    component.process Loggers = Instantiated process /\
    calls (trace (process self input)) =
      flat_map (sink_calls log_level.info 10%Z input)
               (registered Loggers (component.loggers_ self)) /\
    output (trace (process self input)) = sink_lines "info" 10%Z input Loggers.
Proof.
  intros Hknown.
  destruct (process_trace Loggers self input Hknown)
    as (process & Hprocess & _ & Hcalls & Houtput).
  exists process. split; [exact Hprocess |]. split; assumption.
Qed.

Lemma process_calls_and_text_witness :
  exists process,
    component.process [can_logger; can_logger] = Instantiated process /\
    output (trace (process (component.component (Loggers := [can_logger; can_logger])
                                                (5, (5, tt)))
                           {| length := 4%N; width := 5%N; height := 6%N |})) =
      "info: can logger: can id: 10, data: [4, 5, 6, 0, 0, 0]" ++ newline ++
      "info: can logger: can id: 10, data: [4, 5, 6, 0, 0, 0]" ++ newline.
Proof.
  destruct (process_calls_and_text [can_logger; can_logger]
              (component.component (Loggers := [can_logger; can_logger]) (5, (5, tt)))
              {| length := 4%N; width := 5%N; height := 6%N |})
    as (process & Hprocess & _ & Houtput).
  - reflexivity.
  - exists process. split; [exact Hprocess | exact Houtput].
Defined.

(** X8. Calls of [process] in a row on one component, each with its own
    payload: every call returns, and the text on standard output is the
    block of lines of the first payload, then the block of the second, and
    so on, each block being the one a single call writes. *)
Theorem process_sequence_text
    (Loggers : list class_name) (self : component.t Loggers) (inputs : list input_data) :
  forallb known Loggers = true ->
  exists process,
    component.process Loggers = Instantiated process /\
    result (process_all process self inputs) = Done self /\
    output (trace (process_all process self inputs)) =
      fold_right String.append ""
        (map (fun input => sink_lines "info" 10%Z input Loggers) inputs).
Proof.
  intros Hknown.
  destruct (process_known Loggers Hknown) as (process & Hprocess & Hcall).
  exists process. split; [exact Hprocess |].
  rewrite (process_all_unchanged process self inputs
             (fun input => proj1 (Hcall self input))).
  cbn [trace result fst snd]. split; [reflexivity |].
  rewrite output_concat, map_map. f_equal.
  apply map_ext. intros input.
  destruct (process_trace Loggers self input Hknown)
    as (process' & Hprocess' & _ & _ & Houtput).
  rewrite Hprocess in Hprocess'. injection Hprocess' as <-. exact Houtput.
Qed.

Lemma process_sequence_text_witness :
  exists process,
    component.process [file_logger] = Instantiated process /\
    output (trace (process_all process
                     (component.component (Loggers := [file_logger]) (5, tt))
                     [{| length := 1%N; width := 2%N; height := 3%N |};
                      {| length := 7%N; width := 8%N; height := 9%N |}])) =
      "info: file logger: input data: length: 1, width: 2, height: 3" ++ newline ++
      "info: file logger: input data: length: 7, width: 8, height: 9" ++ newline.
Proof.
  destruct (process_sequence_text [file_logger]
              (component.component (Loggers := [file_logger]) (5, tt))
              [{| length := 1%N; width := 2%N; height := 3%N |};
               {| length := 7%N; width := 8%N; height := 9%N |}])
    as (process & Hprocess & _ & Houtput).
  - reflexivity.
  - exists process. split; [exact Hprocess | exact Houtput].
Defined.
